(** * Shallow embedding of the actor-critic agent of ch8/deep_ac_agent.py

    Numbers of the numeric core (rewards, values, discount, actions) are
    modelled as exact rationals [Q]; tensors and NumPy arrays are modelled as a
    shape together with their row-major flat data.  The neural network, the
    sampling of actions and the environment are external collaborators and
    appear as Section variables. *)

From Stdlib Require Import QArith Qring List Bool Arith Lia.
Import ListNotations.

Open Scope Q_scope.

(** ** Tensors and arrays *)

Module Tensor.

Record tensor := mk_tensor { shape : list nat; data : list Q }.

(** Number of elements of a shape. *)
Definition numel (s : list nat) : nat := fold_right Nat.mul 1%nat s.

Definition rank (t : tensor) : nat := length (shape t).

(** [t.squeeze()]: drop every axis of size 1. *)
Definition squeeze (t : tensor) : tensor :=
  mk_tensor (filter (fun d => negb (Nat.eqb d 1)) (shape t)) (data t).

(** [t.unsqueeze(0)]: add a leading axis of size 1. *)
Definition unsqueeze0 (t : tensor) : tensor :=
  mk_tensor (1%nat :: shape t) (data t).

Definition tmap (f : Q -> Q) (t : tensor) : tensor :=
  mk_tensor (shape t) (map f (data t)).

(** [torch.clamp(x, lo, hi)] on one number. *)
Definition clampQ (lo hi x : Q) : Q :=
  if Qlt_le_dec x lo then lo else if Qlt_le_dec hi x then hi else x.

Definition clamp (lo hi : Q) (t : tensor) : tensor := tmap (clampQ lo hi) t.

(** Element at a multi-index, row-major. *)
Fixpoint flat_index (s idx : list nat) : nat :=
  match s, idx with
  | _ :: s', i :: idx' => (i * numel s' + flat_index s' idx')%nat
  | _, _ => 0%nat
  end.

Definition at_index (t : tensor) (idx : list nat) : Q :=
  nth (flat_index (shape t) idx) (data t) 0.

End Tensor.

Import Tensor.

(** ** n-step return *)

Module NStep.

Section NStep.

(** Observations as the environment hands them out. *)
Variable Obs : Type.

(** [self.actor_critic(self.preproc_obs(s))[2]]: the critic's value estimate
    of an observation, evaluated without gradient tracking. *)
Variable V : Obs -> Q.

(** [DeepActorCriticAgent.calculate_n_step_return].  The body reads the
    discount from [self.gamma]; the [gamma] argument is not used by the
    source. *)
Definition calculate_n_step_return (self_gamma : Q) (n_step_rewards : list Q)
    (final_state : Obs) (done : bool) (gamma : Q) : list Q :=
  let g_t_n := if done then 0 else V final_state in
  snd (fold_left
         (fun (acc : Q * list Q) (r_t : Q) =>
            let g_t_n := r_t + self_gamma * fst acc in
            (g_t_n, g_t_n :: snd acc))
         (rev n_step_rewards) (g_t_n, [])).

End NStep.

(** The backward recurrence of the specification:
    [G_n = boot] and [G_t = r_t + gamma * G_(t+1)]; the result lists
    [G_0 .. G_(n-1)]. *)
Fixpoint backward_returns (gamma boot : Q) (rs : list Q) : list Q :=
  match rs with
  | [] => []
  | r :: rs' =>
      let tl := backward_returns gamma boot rs' in
      (r + gamma * hd boot tl) :: tl
  end.

Fixpoint qpow (g : Q) (n : nat) : Q :=
  match n with
  | O => 1
  | S n' => g * qpow g n'
  end.

(** [sum_(k < n) gamma^(i+k) * r_k] over [rs = r_0 .. r_(n-1)]. *)
Fixpoint disc_from (gamma : Q) (i : nat) (rs : list Q) : Q :=
  match rs with
  | [] => 0
  | r :: rs' => qpow gamma i * r + disc_from gamma (S i) rs'
  end.

(** The discounted sum [r_0 + gamma r_1 + ... + gamma^(n-1) r_(n-1)]. *)
Definition discounted_sum (gamma : Q) (rs : list Q) : Q := disc_from gamma 0 rs.

End NStep.

(** ** Observation and action adapters *)

Module Adapters.

(** A Python value handed to [preproc_obs]: a NumPy array (what the
    environment returns) or a torch tensor. *)
Inductive pyobj :=
| NdArray (a : tensor)
| Torch (t : tensor).

(** [np.reshape(a, s)]: same flat data, new shape; a size mismatch raises
    [ValueError] (here [None]). *)
Definition np_reshape (a : tensor) (s : list nat) : option tensor :=
  if Nat.eqb (numel s) (length (data a)) then Some (mk_tensor s (data a))
  else None.

(** [np.resize(a, s)]: the flattened data repeated [ceil(new_size / size)]
    times and cut to the new size; an empty input or shape is zero filled. *)
Definition np_resize (a : tensor) (s : list nat) : tensor :=
  let new_size := numel s in
  let size := length (data a) in
  if Nat.eqb size 0 || Nat.eqb new_size 0 then mk_tensor s (repeat 0 new_size)
  else
    let repeats := ((new_size + size - 1) / size)%nat in
    mk_tensor s (firstn new_size (concat (repeat (data a) repeats))).

(** [DeepActorCriticAgent.preproc_obs].  A 3-D value goes through
    [np.reshape] to [(shape[2], shape[1], shape[0])] and [np.resize] to
    [(3, 84, 84)], which yields a NumPy array (also for a tensor input);
    [torch.from_numpy] then accepts only a NumPy array ([TypeError]
    otherwise), [unsqueeze(0)] adds the batch axis and [.float()] keeps the
    values. *)
Definition preproc_obs (obs : pyobj) : option pyobj :=
  let arr := match obs with NdArray a => a | Torch t => t end in
  let obs' :=
    if Nat.eqb (rank arr) 3 then
      match shape arr with
      | [d0; d1; d2] =>
          match np_reshape arr [d2; d1; d0] with
          | Some a => Some (NdArray (np_resize a [3; 84; 84]%nat))
          | None => None
          end
      | _ => None
      end
    else Some obs in
  match obs' with
  | Some (NdArray a) => Some (Torch (unsqueeze0 a))
  | _ => None
  end.

(** [action[i] = f(action[i])]: update the [i]-th slice along the first axis;
    an index out of range raises [IndexError]. *)
Definition set_row (i : nat) (f : Q -> Q) (t : tensor) : option tensor :=
  match shape t with
  | d0 :: rest =>
      if Nat.ltb i d0 then
        let k := numel rest in
        Some (mk_tensor (shape t)
                (firstn (i * k) (data t)
                 ++ map f (firstn k (skipn (i * k) (data t)))
                 ++ skipn ((i + 1) * k) (data t)))
      else None
  | [] => None
  end.

(** [DeepActorCriticAgent.process_action]; the guards test
    [len(action.shape)], the number of axes. *)
Definition process_action (action : tensor) : option tensor :=
  let action := squeeze action in
  let action := if Nat.eqb (rank action) 0 then unsqueeze0 action else action in
  match (if Nat.ltb 1 (rank action) then set_row 1 (clampQ 0 1) action
         else Some action) with
  | None => None
  | Some action =>
      if Nat.ltb 2 (rank action)
      then set_row 2 (fun x => clampQ 0 1 x + (1 # 10000)) action
      else Some action
  end.

End Adapters.

Import Adapters.

(** ** Gaussian policy wrapper and one-step TD update *)

Module Policy.

(** [MultivariateNormal(loc, covariance_matrix)]; its [mean] is [loc]. *)
Record mvn := MVN { loc : tensor; covariance_matrix : tensor }.

Definition mean_of (d : mvn) : tensor := loc d.

(** What the wrapper stores on the agent: [self.mu], [self.sigma],
    [self.value] (the critic's [1 x 1] output, one number). *)
Record agent_state := mk_agent { self_mu : tensor; self_sigma : tensor; self_value : Q }.

(** [torch.eye(n) * sigma]: entry [(i, j)] is [eye[i][j] * sigma[j]] when
    [sigma] has [n] (or one) entries; other shapes do not broadcast. *)
Definition eye_times (n : nat) (sigma : tensor) : option tensor :=
  let entry (i j : nat) (s : Q) := if Nat.eqb i j then s else 0 in
  let build (f : nat -> Q) :=
    mk_tensor [n; n] (flat_map (fun i => map (fun j => entry i j (f j)) (seq 0 n)) (seq 0 n)) in
  match shape sigma with
  | [] => Some (build (fun _ => nth 0 (data sigma) 0))
  | [m] =>
      if Nat.eqb m n then Some (build (fun j => nth j (data sigma) 0))
      else if Nat.eqb m 1 then Some (build (fun _ => nth 0 (data sigma) 0))
      else None
  | _ => None
  end.

(** [torch.mean] of the entries of a tensor. *)
Definition q_mean (l : list Q) : Q :=
  fold_right Qplus 0 l / inject_Z (Z.of_nat (length l)).

Record td_step := mk_td_step { td_target : Q; td_err : Q; loss : Q }.

Section Policy.

(** The network [self.actor_critic] on a batched observation tensor:
    raw mean, raw spread and value. *)
Variable actor_critic : tensor -> tensor * tensor * Q.
(** [torch.nn.Softplus()] on one number. *)
Variable softplus : Q -> Q.
Variable action_shape : nat.
(** The argument check of [MultivariateNormal(..., validate_args=True)]:
    [true] when it accepts the location and covariance. *)
Variable mvn_validate : tensor -> tensor -> bool.
(** [log_prob] of a distribution at an action. *)
Variable log_prob : mvn -> tensor -> Q.
(** [self.gamma]. *)
Variable gamma : Q.

(** [DeepActorCriticAgent.multi_variate_gaussian_policy]: [None] when the
    distribution construction raises. *)
Definition multi_variate_gaussian_policy (st : agent_state) (obs : tensor)
    : option (mvn * agent_state) :=
  let '(mu, sigma, value) := actor_critic obs in
  let mu := squeeze (clamp (-1) 1 mu) in
  let sigma := tmap (fun x => x + (1 # 10000000)) (squeeze (tmap softplus sigma)) in
  let mu := if Nat.eqb (rank mu) 0 then unsqueeze0 mu else mu in
  let st' := mk_agent mu sigma value in
  match eye_times action_shape sigma with
  | Some cov =>
      if mvn_validate mu cov then Some (MVN mu cov, st') else None
  | None => None
  end.

(** [self.policy(self.preproc_obs(obs))]. *)
Definition policy_query (st : agent_state) (obs : pyobj) : option (mvn * agent_state) :=
  match preproc_obs obs with
  | Some (Torch t) => multi_variate_gaussian_policy st t
  | _ => None
  end.

(** [DeepActorCriticAgent.learn_td_ac], up to the optimizer step: the values
    it computes and the agent state it leaves.  [done] is not read by the
    source. *)
Definition learn_td_ac (st : agent_state) (s_t : pyobj) (a_t : tensor) (r : Q)
    (s_tp1 : pyobj) (done : bool) : option (td_step * agent_state) :=
  match policy_query st s_t with
  | None => None
  | Some (dist_t, st1) =>
      let policy_loss := log_prob dist_t a_t in
      let v_st := self_value st1 in
      match policy_query st1 s_tp1 with
      | None => None
      | Some (_, st2) =>
          let v_stp1 := self_value st2 in
          let td_target := r + gamma * v_stp1 in
          let td_err := td_target - v_st in
          let loss := - q_mean [policy_loss + td_err * td_err] in
          Some (mk_td_step td_target td_err loss, st2)
      end
  end.

End Policy.

End Policy.

(** ** The n-step training loop [DeepActorCriticAgent.run] *)

Module Driver.

Section Driver.

(** Observations; network parameters, owned by the agent; the [Transition]
    records of the trajectory. *)
Context {Obs Params Transition : Type}.
(** [get_action(obs)]: the [Transition] it appends to [self.trajectory]. *)
Variable get_action : Params -> Obs -> Transition.
(** The optimizer step of [learn] on the loss computed from the reward
    buffer, the trajectory and the last observation. *)
Variable optimize : Params -> list Q -> list Transition -> Obs -> bool -> Params.

(** Scalars sent to the [SummaryWriter]; the loss record carries the reward
    buffer and trajectory the loss was computed from. *)
Inductive event :=
| LossEv (step : nat) (rewards : list Q) (trajectory : list Transition)
| RewardEv (step : nat) (reward : Q)
| EpRewardEv (step : nat) (ep_reward : Q).

Record driver := mk_driver {
  params : Params;
  trajectory : list Transition;
  rewards : list Q;
  global_step_num : nat;
  log : list event }.

(** A new agent: empty buffers, step counter 0, empty summary. *)
Definition init_driver (p : Params) : driver := mk_driver p [] [] 0 [].

Definition append_transition (tr : Transition) (st : driver) : driver :=
  mk_driver (params st) (trajectory st ++ [tr]) (rewards st) (global_step_num st) (log st).

Definition append_reward (r : Q) (st : driver) : driver :=
  mk_driver (params st) (trajectory st) (rewards st ++ [r]) (global_step_num st) (log st).

Definition write (e : event) (st : driver) : driver :=
  mk_driver (params st) (trajectory st) (rewards st) (global_step_num st) (log st ++ [e]).

Definition tick (st : driver) : driver :=
  mk_driver (params st) (trajectory st) (rewards st) (S (global_step_num st)) (log st).

(** [DeepActorCriticAgent.learn]: loss over [self.rewards] and
    [self.trajectory], written at [self.global_step_num], then one optimizer
    step.  Neither buffer is touched. *)
Definition learn (n_th_observation : Obs) (done : bool) (st : driver) : driver :=
  let st := write (LossEv (global_step_num st) (rewards st) (trajectory st)) st in
  mk_driver (optimize (params st) (rewards st) (trajectory st) n_th_observation done)
            (trajectory st) (rewards st) (global_step_num st) (log st).

(** The [while not done] loop of one episode.  The environment is a script of
    [env.step] results [(next_obs, reward, done)]; the loop also stops when the
    script runs out. *)
Fixpoint episode_loop (thresh step_num : nat) (ep_reward : Q) (obs : Obs)
    (script : list (Obs * Q * bool)) (st : driver) : driver * Q :=
  match script with
  | [] => (st, ep_reward)
  | (next_obs, reward, done) :: script' =>
      let st := append_transition (get_action (params st) obs) st in
      let st := append_reward reward st in
      let step_num := S step_num in
      let st := if Nat.leb thresh step_num || done then learn next_obs done st else st in
      let ep_reward := ep_reward + reward in
      let st := tick st in
      let st := write (RewardEv (global_step_num st) reward) st in
      if done then (st, ep_reward)
      else episode_loop thresh step_num ep_reward next_obs script' st
  end.

(** One iteration of the episode loop of [run]: reset, loop, write the
    episode reward. *)
Definition run_episode (thresh : nat) (st : driver) (episode : Obs * list (Obs * Q * bool))
    : driver :=
  let '(st, ep_reward) := episode_loop thresh 0 0 (fst episode) (snd episode) st in
  write (EpRewardEv (global_step_num st) ep_reward) st.

(** [DeepActorCriticAgent.run] over the episodes' scripts. *)
Definition run (episodes : list (Obs * list (Obs * Q * bool))) (thresh : nat)
    (st : driver) : driver :=
  fold_left (run_episode thresh) episodes st.

(** The loss records of a summary. *)
Definition loss_events (l : list event) : list (nat * list Q * list Transition) :=
  flat_map (fun e => match e with LossEv n rs tr => [(n, rs, tr)] | _ => [] end) l.

Definition loss_steps (l : list event) : list nat :=
  map (fun x => fst (fst x)) (loss_events l).

(** The per-step reward records of a summary. *)
Definition reward_events (l : list event) : list (nat * Q) :=
  flat_map (fun e => match e with RewardEv n r => [(n, r)] | _ => [] end) l.

End Driver.

(** Number of [env.step] calls of an episode: up to and including the first
    step that reports [done]. *)
Fixpoint steps_taken {Obs : Type} (script : list (Obs * Q * bool)) : nat :=
  match script with
  | [] => 0
  | (_, _, d) :: script' => S (if d then 0 else steps_taken script')
  end.

(** Rewards of the steps an episode takes. *)
Fixpoint taken_rewards {Obs : Type} (script : list (Obs * Q * bool)) : list Q :=
  match script with
  | [] => []
  | (_, r, d) :: script' => r :: (if d then [] else taken_rewards script')
  end.

Definition done_at {Obs : Type} (script : list (Obs * Q * bool)) (i : nat) : bool :=
  match nth_error script i with
  | Some (_, _, d) => d
  | None => false
  end.

End Driver.

(** ** Shapes through the two networks *)

Module Networks.

(** [torch.nn.Conv2d(cin, cout, k, stride=1, padding=0)] on a batched
    [(N, C, H, W)] input: the channel count must be [cin] and the kernel must
    fit.  Inputs of another rank are not modelled ([None]). *)
Definition conv2d (cin cout k : nat) (s : list nat) : option (list nat) :=
  match s with
  | [b; c; h; w] =>
      if Nat.eqb c cin && Nat.leb k h && Nat.leb k w
      then Some [b; cout; (h - k + 1)%nat; (w - k + 1)%nat]
      else None
  | _ => None
  end.

(** [torch.nn.Linear(fin, fout)]: the last axis must have [fin] entries and
    becomes [fout]. *)
Definition linear (fin fout : nat) (s : list nat) : option (list nat) :=
  match rev s with
  | d :: _ => if Nat.eqb d fin then Some (removelast s ++ [fout]) else None
  | [] => None
  end.

(** [x.view(x.shape[0], -1)]. *)
Definition view_flat (s : list nat) : option (list nat) :=
  match s with
  | b :: rest => Some [b; numel rest]
  | [] => None
  end.

Definition bind {A B : Type} (o : option A) (f : A -> option B) : option B :=
  match o with Some a => f a | None => None end.

Notation "x <- o ; f" := (bind o (fun x => f)) (at level 61, o at next level, right associativity).

(** [DeepActorCritic.forward]: the shapes of [actor_mu], [actor_sigma] and
    [critic]; the ReLUs keep shapes. *)
Definition deep_forward_shape (input_shape : list nat) (actor_shape : nat) (x : list nat)
    : option (list nat * list nat * list nat) :=
  x <- conv2d (nth 2 input_shape 0%nat) 128 3 x;
  x <- conv2d 128 64 3 x;
  x <- conv2d 64 32 3 x;
  x <- view_flat x;
  x <- linear (32 * 78 * 78)%nat 2048 x;
  mu <- linear 2048 actor_shape x;
  sigma <- linear 2048 actor_shape x;
  critic <- linear 2048 1 x;
  Some (mu, sigma, critic).

(** [ShallowActorCritic.forward]. *)
Definition shallow_forward_shape (input_shape : list nat) (actor_shape : nat) (x : list nat)
    : option (list nat * list nat * list nat) :=
  x <- linear (nth 0 input_shape 0%nat) 256 x;
  x <- linear 256 128 x;
  mu <- linear 128 actor_shape x;
  sigma <- linear 128 actor_shape x;
  critic <- linear 128 1 x;
  Some (mu, sigma, critic).

(** The network [DeepActorCriticAgent.__init__] builds for a state shape
    (critic size 1). *)
Definition agent_forward_shape (state_shape : list nat) (action_shape : nat)
    : list nat -> option (list nat * list nat * list nat) :=
  if Nat.eqb (length state_shape) 3 then deep_forward_shape state_shape action_shape
  else shallow_forward_shape state_shape action_shape.

End Networks.

(** ** Concrete inputs *)

Module Inputs.

(** A raw action sampled for a 3-dimensional action space. *)
Definition raw_action3 : tensor := mk_tensor [3%nat] [1 # 2; -1 # 5; 3 # 2].

(** An 84 x 84 x 3 observation whose entries are their row-major positions:
    [obs[h][w][c] = 3 * (84 * h + w) + c]. *)
Definition ramp_obs : tensor :=
  mk_tensor [84; 84; 3]%nat (map (fun n => inject_Z (Z.of_nat n)) (seq 0 (84 * 84 * 3))).

(** An 84 x 84 x 1 (one channel) observation. *)
Definition gray_obs : tensor := mk_tensor [84; 84; 1]%nat (repeat 0 (84 * 84)).


(** A stand-in network for a 2-dimensional action space: raw mean
    [(5, -1.5)], raw spread [(0, 1)], value [0.5]. *)
Definition demo_actor_critic (_ : tensor) : tensor * tensor * Q :=
  (mk_tensor [1; 2]%nat [5; -3 # 2], mk_tensor [1; 2]%nat [0; 1], 1 # 2).

(** A stand-in network for a 1-dimensional action space whose value is
    [0.5] at the observation [[0]] and [0.6] elsewhere. *)
Definition demo_td_actor_critic (t : tensor) : tensor * tensor * Q :=
  (mk_tensor [1; 1]%nat [0], mk_tensor [1; 1]%nat [0],
   if Qeq_bool (nth 0 (data t) 0) 0 then 1 # 2 else 3 # 5).

(** Rational stand-ins for [Softplus] and [log_prob], and a validation that
    accepts. *)
Definition demo_softplus (x : Q) : Q := x * x + 1.
Definition demo_log_prob (_ : Policy.mvn) (_ : tensor) : Q := -1.
Definition demo_validate (_ _ : tensor) : bool := true.

Definition demo_state : Policy.agent_state :=
  Policy.mk_agent (mk_tensor [] []) (mk_tensor [] []) 0.

(** Observations [s_t = [0]], [s_(t+1) = [1]] and the action [[0]]. *)
Definition demo_s_t : pyobj := NdArray (mk_tensor [1%nat] [0]).
Definition demo_s_tp1 : pyobj := NdArray (mk_tensor [1%nat] [1]).
Definition demo_a_t : tensor := mk_tensor [1%nat] [0].

(** Stand-ins for the n-step loop: observations, parameters and transitions
    are numbers; a transition records the observation it was taken at and
    the optimizer counts its steps. *)
Definition demo_get_action (_ : nat) (obs : nat) : nat := obs.
Definition demo_optimize (p : nat) (_ : list Q) (_ : list nat) (_ : nat) (_ : bool) : nat :=
  S p.

(** Two steps, the episode ends at the second one. *)
Definition script_two_steps : list (nat * Q * bool) := [(1%nat, 1, false); (2%nat, 2, true)].

(** Three steps, the episode ends at the third one. *)
Definition script_three_steps : list (nat * Q * bool) :=
  [(1%nat, 1, false); (2%nat, 2, false); (3%nat, 3, true)].

(** Four steps, the episode ends at the fourth one. *)
Definition script_four_steps : list (nat * Q * bool) :=
  [(1%nat, 1, false); (2%nat, 2, false); (3%nat, 3, false); (4%nat, 4, true)].

End Inputs.



(** * Proofs *)

Module NStepProofs.

Import NStep.

Lemma calc_fold_right (g : Q) (b : Q) (rs : list Q) :
  fold_right (fun (r_t : Q) (acc : Q * list Q) =>
                (r_t + g * fst acc, (r_t + g * fst acc) :: snd acc))
             (b, []) rs
  = (hd b (backward_returns g b rs), backward_returns g b rs).
Proof.
  induction rs as [|r rs IH]; simpl; [reflexivity|].
  rewrite IH. reflexivity.
Qed.

Lemma fold_left_rev {A B : Type} (f : A -> B -> A) (l : list B) (a : A) :
  fold_left f (rev l) a = fold_right (fun x acc => f acc x) a l.
Proof.
  induction l as [|x l IH]; simpl; [reflexivity|].
  rewrite fold_left_app, IH. reflexivity.
Qed.

Lemma calc_is_backward (Obs : Type) (V : Obs -> Q) g rs fs done gamma :
  calculate_n_step_return Obs V g rs fs done gamma
  = backward_returns g (if done then 0 else V fs) rs.
Proof.
  unfold calculate_n_step_return.
  rewrite fold_left_rev. rewrite calc_fold_right. reflexivity.
Qed.

Lemma backward_length g b rs : length (backward_returns g b rs) = length rs.
Proof. induction rs; simpl; congruence. Qed.

Lemma disc_from_succ g i rs : disc_from g (S i) rs == g * disc_from g i rs.
Proof.
  revert i; induction rs as [|r rs IH]; intro i; simpl; [ring|].
  rewrite IH. ring.
Qed.

Lemma backward_head_terminal g rs :
  hd 0 (backward_returns g 0 rs) == discounted_sum g rs.
Proof.
  unfold discounted_sum.
  induction rs as [|r rs IH]; simpl; [reflexivity|].
  rewrite IH, disc_from_succ. ring.
Qed.

Lemma backward_skipn g b t rs :
  skipn t (backward_returns g b rs) = backward_returns g b (skipn t rs).
Proof.
  revert rs; induction t as [|t IH]; intro rs; [reflexivity|].
  destruct rs as [|r rs]; [reflexivity|]. simpl. apply IH.
Qed.

Lemma nth_hd_skipn (l : list Q) t : nth t l 0 = hd 0 (skipn t l).
Proof.
  revert l; induction t as [|t IH]; intro l; destruct l; simpl; auto.
Qed.

Lemma backward_last_snoc g b pre r :
  last (backward_returns g b (pre ++ [r])) 0 = r + g * b.
Proof.
  induction pre as [|x pre IH]; simpl; [reflexivity|].
  destruct (backward_returns g b (pre ++ [r])) eqn:E.
  - apply (f_equal (@length Q)) in E. rewrite backward_length, length_app in E.
    simpl in E. lia.
  - exact IH.
Qed.

Example calc_terminal_scenario :
  calculate_n_step_return unit (fun _ => 0) (1#2) [1; 1; 1] tt true (1#2)
  = [1 + (1#2) * (1 + (1#2) * (1 + (1#2) * 0)); 1 + (1#2) * (1 + (1#2) * 0);
     1 + (1#2) * 0].
Proof. reflexivity. Qed.

(** Claim C1: [calculate_n_step_return] returns the sequence of the backward
    recurrence [G_n = 0] if terminal, else [V(final_state)], and
    [G_t = r_t + gamma * G_(t+1)]; with a terminal final state every [G_t] is
    the discounted sum [r_t + gamma r_(t+1) + ... + gamma^(n-1-t) r_(n-1)] and
    the last return is exactly [r_(n-1)]; with a non-terminal final state the
    last return is [r_(n-1) + gamma * V(final_state)].  The discount is the
    agent's [self.gamma] (the value the caller [learn] also passes as the
    [gamma] argument). *)
Theorem calculate_n_step_return_backward_recurrence :
  forall (Obs : Type) (V : Obs -> Q) (self_gamma : Q) (rewards : list Q)
         (final_state : Obs) (done : bool) (gamma : Q),
    calculate_n_step_return Obs V self_gamma rewards final_state done gamma
      = backward_returns self_gamma (if done then 0 else V final_state) rewards
    /\ (forall t : nat,
          nth t (calculate_n_step_return Obs V self_gamma rewards final_state true gamma) 0
          == discounted_sum self_gamma (skipn t rewards))
    /\ last (calculate_n_step_return Obs V self_gamma rewards final_state true gamma) 0
       == last rewards 0
    /\ (forall (pre : list Q) (r_last : Q),
          last (calculate_n_step_return Obs V self_gamma (pre ++ [r_last]) final_state false gamma) 0
          == r_last + self_gamma * V final_state).
Proof.
  intros Obs V g rs fs done gamma.
  split; [apply calc_is_backward|].
  split; [|split].
  - intro t. rewrite calc_is_backward, nth_hd_skipn, backward_skipn.
    apply backward_head_terminal.
  - rewrite calc_is_backward.
    destruct rs as [|r0 rs0] using rev_ind; [reflexivity|].
    rewrite backward_last_snoc, last_last. ring.
  - intros pre r. rewrite calc_is_backward, backward_last_snoc. reflexivity.
Qed.

(** Claim C10: the list returned by [calculate_n_step_return] has exactly the
    length of the rewards list, its index 0 is the return of the earliest
    step, and for an empty rewards list it is empty even for a non-terminal
    final state. *)
Theorem calculate_n_step_return_length :
  forall (Obs : Type) (V : Obs -> Q) (self_gamma : Q) (rewards : list Q)
         (final_state : Obs) (done : bool) (gamma : Q),
    length (calculate_n_step_return Obs V self_gamma rewards final_state done gamma)
      = length rewards
    /\ calculate_n_step_return Obs V self_gamma [] final_state false gamma = []
    /\ (forall (r0 : Q) (rest : list Q),
          hd 0 (calculate_n_step_return Obs V self_gamma (r0 :: rest) final_state done gamma)
          = r0 + self_gamma *
                 hd (if done then 0 else V final_state)
                    (calculate_n_step_return Obs V self_gamma rest final_state done gamma)).
Proof.
  intros Obs V g rs fs done gamma.
  split; [rewrite calc_is_backward; apply backward_length|].
  split; [reflexivity|].
  intros r0 rest. rewrite !calc_is_backward. reflexivity.
Qed.

End NStepProofs.

Module AdapterProofs.

Import Inputs.

(** Claim C3: [process_action] tests [len(action.shape)] (the number of
    axes), so a sampled 1-D action of a 3-dimensional action space,
    e.g. [[0.5, -0.2, 1.5]], comes back unchanged: its second component stays
    [-0.2] instead of being clamped to [0] (and the third stays [1.5]). *)
Theorem process_action_vector_unclamped :
  process_action raw_action3 = Some (mk_tensor [3%nat] [1 # 2; -1 # 5; 3 # 2])
  /\ ~ (nth 1 (data (mk_tensor [3%nat] [1 # 2; -1 # 5; 3 # 2])) 0 == 0)
  /\ ~ (nth 2 (data (mk_tensor [3%nat] [1 # 2; -1 # 5; 3 # 2])) 0 == 1 + (1 # 10000)).
Proof.
  split; [reflexivity|].
  split; cbn; intro H; discriminate H.
Qed.

(** No 1-D action with at least two components is ever clamped. *)
Lemma process_action_vector_identity (n : nat) (l : list Q) :
  (2 <= n)%nat -> process_action (mk_tensor [n] l) = Some (mk_tensor [n] l).
Proof.
  intro Hn. unfold process_action, squeeze. cbn.
  destruct n as [|[|n]]; [lia|lia|reflexivity].
Qed.

(** Claim C5: [preproc_obs] uses [np.reshape] and [np.resize], which keep
    the row-major data instead of reordering axes or resampling the image.
    On the 84 x 84 x 3 ramp observation (for which a spatial resize to 84 x 84
    changes nothing) the entry [(0, 0, 0, 1)] of the output is [obs[0][0][1]]
    [= 1], whereas the channel-first layout has [obs[1][0][0]] [= 252] there;
    and a one-channel 84 x 84 x 1 observation comes out with shape
    [(1, 3, 84, 84)], not [(1, 1, 84, 84)]. *)
Theorem preproc_obs_keeps_row_major_data :
  match preproc_obs (NdArray ramp_obs) with
  | Some (Torch t) =>
      shape t = [1; 3; 84; 84]%nat
      /\ at_index t [0; 0; 0; 1]%nat == 1
      /\ at_index ramp_obs [1; 0; 0]%nat == 252
      /\ ~ (at_index t [0; 0; 0; 1]%nat == at_index ramp_obs [1; 0; 0]%nat)
  | _ => False
  end
  /\ match preproc_obs (NdArray gray_obs) with
     | Some (Torch t) => shape t = [1; 3; 84; 84]%nat
     | _ => False
     end.
Proof.
  split.
  - vm_compute. split; [reflexivity|]. split; [reflexivity|].
    split; [reflexivity|]. intro H; discriminate H.
  - vm_compute. reflexivity.
Qed.

Lemma np_resize_same_size (d : list Q) :
  length d = (84 * 84 * 3)%nat ->
  np_resize (mk_tensor [3; 84; 84]%nat d) [3; 84; 84]%nat = mk_tensor [3; 84; 84]%nat d.
Proof.
  intro H. unfold np_resize. cbn [data]. rewrite H.
  change (numel [3; 84; 84]%nat) with (84 * 84 * 3)%nat.
  set (n := (84 * 84 * 3)%nat).
  replace (Nat.eqb n 0 || Nat.eqb n 0) with false by (vm_compute; reflexivity).
  replace ((n + n - 1) / n)%nat with 1%nat by (vm_compute; reflexivity).
  cbn [repeat concat]. rewrite app_nil_r, firstn_all2; [reflexivity|].
  rewrite H. apply Nat.le_refl.
Qed.

Lemma preproc_obs_canonical (d : list Q) :
  length d = (84 * 84 * 3)%nat ->
  preproc_obs (NdArray (mk_tensor [84; 84; 3]%nat d))
    = Some (Torch (mk_tensor [1; 3; 84; 84]%nat d))
  /\ preproc_obs (Torch (mk_tensor [1; 3; 84; 84]%nat d)) = None.
Proof.
  intro H. split; [|reflexivity].
  unfold preproc_obs, np_reshape. cbn [rank shape data length Nat.eqb].
  rewrite H.
  change (numel [3; 84; 84]%nat) with (84 * 84 * 3)%nat.
  rewrite Nat.eqb_refl.
  rewrite np_resize_same_size by exact H. reflexivity.
Qed.

Lemma ramp_obs_length : length (data Inputs.ramp_obs) = (84 * 84 * 3)%nat.
Proof. unfold Inputs.ramp_obs. cbn [data]. rewrite length_map, length_seq. reflexivity. Qed.

(** Claim C6 (counterexample): applying [preproc_obs] to its own output on
    the 84 x 84 x 3 ramp observation fails ([torch.from_numpy] rejects a
    tensor), so twice is not once. *)
Lemma preproc_obs_twice_differs :
  (match preproc_obs (NdArray Inputs.ramp_obs) with
   | Some o => preproc_obs o
   | None => None
   end) <> preproc_obs (NdArray Inputs.ramp_obs).
Proof.
  destruct (preproc_obs_canonical (data Inputs.ramp_obs) ramp_obs_length) as [E1 E2].
  change Inputs.ramp_obs with (mk_tensor [84; 84; 3]%nat (data Inputs.ramp_obs)).
  rewrite E1, E2. discriminate.
Qed.

(** Claim C6 (amended): on every 84 x 84 x 3 NumPy observation
    [preproc_obs] returns a [1 x 3 x 84 x 84] torch tensor, and
    [preproc_obs] applied to that tensor fails, so applying it twice never
    gives what applying it once gives. *)
Theorem preproc_obs_not_reapplicable (d : list Q) :
  length d = (84 * 84 * 3)%nat ->
  exists t,
    preproc_obs (NdArray (mk_tensor [84; 84; 3]%nat d)) = Some (Torch t)
    /\ shape t = [1; 3; 84; 84]%nat
    /\ preproc_obs (Torch t) = None
    /\ (match preproc_obs (NdArray (mk_tensor [84; 84; 3]%nat d)) with
        | Some o => preproc_obs o
        | None => None
        end) <> preproc_obs (NdArray (mk_tensor [84; 84; 3]%nat d)).
Proof.
  intro H. destruct (preproc_obs_canonical d H) as [E1 E2].
  exists (mk_tensor [1; 3; 84; 84]%nat d). rewrite E1.
  split; [reflexivity|]. split; [reflexivity|]. split; [exact E2|].
  rewrite E2. discriminate.
Qed.

Lemma preproc_obs_not_reapplicable_witness :
  length (data Inputs.ramp_obs) = (84 * 84 * 3)%nat
  /\ exists t,
    preproc_obs (NdArray (mk_tensor [84; 84; 3]%nat (data Inputs.ramp_obs))) = Some (Torch t)
    /\ shape t = [1; 3; 84; 84]%nat
    /\ preproc_obs (Torch t) = None
    /\ (match preproc_obs (NdArray (mk_tensor [84; 84; 3]%nat (data Inputs.ramp_obs))) with
        | Some o => preproc_obs o
        | None => None
        end) <> preproc_obs (NdArray (mk_tensor [84; 84; 3]%nat (data Inputs.ramp_obs))).
Proof.
  assert (H : length (data Inputs.ramp_obs) = (84 * 84 * 3)%nat) by apply ramp_obs_length.
  split; [exact H|].
  exact (preproc_obs_not_reapplicable (data Inputs.ramp_obs) H).
Defined.

End AdapterProofs.

Module PolicyProofs.

Import Policy.

Lemma clampQ_bounds (lo hi x : Q) : lo <= hi -> lo <= clampQ lo hi x <= hi.
Proof.
  intro Hle. unfold clampQ.
  destruct (Qlt_le_dec x lo) as [Hx|Hx].
  - split; [apply Qle_refl | exact Hle].
  - destruct (Qlt_le_dec hi x) as [Hy|Hy].
    + split; [exact Hle | apply Qle_refl].
    + split; assumption.
Qed.

(** The distribution the wrapper builds has the clamped, squeezed network
    mean as its location (one axis added back for a scalar). *)
Lemma policy_loc (actor_critic : tensor -> tensor * tensor * Q) softplus action_shape
    mvn_validate st obs d st' :
  multi_variate_gaussian_policy actor_critic softplus action_shape mvn_validate st obs
    = Some (d, st') ->
  data (loc d) = map (clampQ (-1) 1) (data (fst (fst (actor_critic obs)))).
Proof.
  unfold multi_variate_gaussian_policy.
  destruct (actor_critic obs) as [[mu sigma] value]. cbn [fst].
  destruct (eye_times _ _) as [cov|]; [|discriminate].
  destruct (mvn_validate _ _); [|discriminate].
  intro E. injection E as <- _. cbn.
  destruct (Nat.eqb _ 0); reflexivity.
Qed.

(** Claim C8: whenever the Gaussian policy wrapper returns a distribution,
    every component of its mean lies in [[-1, 1]], whatever the raw network
    mean. *)
Theorem policy_mean_in_unit_box :
  forall (actor_critic : tensor -> tensor * tensor * Q) (softplus : Q -> Q)
         (action_shape : nat) (mvn_validate : tensor -> tensor -> bool)
         (st : agent_state) (obs : tensor) (d : mvn) (st' : agent_state),
    multi_variate_gaussian_policy actor_critic softplus action_shape mvn_validate st obs
      = Some (d, st') ->
    Forall (fun x => -1 <= x <= 1) (data (mean_of d)).
Proof.
  intros ac sp n val st obs d st' E.
  unfold mean_of. rewrite (policy_loc ac sp n val st obs d st' E).
  apply Forall_forall. intros x Hx.
  apply in_map_iff in Hx as [y [<- _]].
  apply clampQ_bounds. discriminate.
Qed.

Lemma policy_mean_in_unit_box_witness :
  exists d st',
    multi_variate_gaussian_policy Inputs.demo_actor_critic Inputs.demo_softplus 2
      Inputs.demo_validate Inputs.demo_state (mk_tensor [1; 4]%nat [0; 0; 0; 0])
      = Some (d, st')
    /\ Forall (fun x => -1 <= x <= 1) (data (mean_of d)).
Proof.
  destruct (multi_variate_gaussian_policy Inputs.demo_actor_critic Inputs.demo_softplus 2
              Inputs.demo_validate Inputs.demo_state (mk_tensor [1; 4]%nat [0; 0; 0; 0]))
    as [[d st']|] eqn:E.
  - exists d, st'. split; [reflexivity|].
    exact (policy_mean_in_unit_box _ _ _ _ _ _ d st' E).
  - vm_compute in E. discriminate E.
Defined.

(** The values the update reads are the critic outputs at the two
    preprocessed observations. *)
Lemma policy_query_value actor_critic softplus action_shape mvn_validate st obs d st' :
  policy_query actor_critic softplus action_shape mvn_validate st obs = Some (d, st') ->
  exists t, preproc_obs obs = Some (Torch t) /\ self_value st' = snd (actor_critic t).
Proof.
  unfold policy_query.
  destruct (preproc_obs obs) as [[a|t]|]; try discriminate.
  intro E. exists t. split; [reflexivity|].
  unfold multi_variate_gaussian_policy in E.
  destruct (actor_critic t) as [[mu sigma] value].
  destruct (eye_times _ _); [|discriminate].
  destruct (mvn_validate _ _); [|discriminate].
  injection E as _ <-. reflexivity.
Qed.

(** Claim C2: the one-step TD update queries the policy at [s_t] (giving
    [log_prob] of [a_t] and [V(s_t)]) and again at [s_(t+1)] (giving
    [V(s_(t+1))]), and computes [td_target = r + gamma * V(s_(t+1))],
    [td_error = td_target - V(s_t)] and
    [loss = -mean(log_prob + td_error^2)]. *)
Theorem learn_td_ac_td_error :
  forall (actor_critic : tensor -> tensor * tensor * Q) (softplus : Q -> Q)
         (action_shape : nat) (mvn_validate : tensor -> tensor -> bool)
         (log_prob : mvn -> tensor -> Q) (gamma : Q)
         (st : agent_state) (s_t : pyobj) (a_t : tensor) (r : Q) (s_tp1 : pyobj)
         (done : bool) (res : td_step) (st' : agent_state),
    learn_td_ac actor_critic softplus action_shape mvn_validate log_prob gamma
      st s_t a_t r s_tp1 done = Some (res, st') ->
    exists (d_t : mvn) (st1 : agent_state) (d_tp1 : mvn),
      policy_query actor_critic softplus action_shape mvn_validate st s_t = Some (d_t, st1)
      /\ policy_query actor_critic softplus action_shape mvn_validate st1 s_tp1
           = Some (d_tp1, st')
      /\ td_target res == r + gamma * self_value st'
      /\ td_err res == td_target res - self_value st1
      /\ loss res == - (log_prob d_t a_t + td_err res * td_err res)
      /\ (exists t_t t_tp1 : tensor,
            preproc_obs s_t = Some (Torch t_t) /\ preproc_obs s_tp1 = Some (Torch t_tp1)
            /\ self_value st1 = snd (actor_critic t_t)
            /\ self_value st' = snd (actor_critic t_tp1)).
Proof.
  intros ac sp n val lp g st s_t a_t r s_tp1 done res st' E.
  unfold learn_td_ac in E.
  destruct (policy_query ac sp n val st s_t) as [[d1 st1]|] eqn:E1; [|discriminate].
  destruct (policy_query ac sp n val st1 s_tp1) as [[d2 st2]|] eqn:E2; [|discriminate].
  injection E as <- <-.
  exists d1, st1, d2. split; [reflexivity|]. split; [exact E2|]. cbn.
  split; [reflexivity|]. split; [reflexivity|]. split.
  - unfold q_mean. cbn. field.
  - destruct (policy_query_value _ _ _ _ _ _ _ _ E1) as (t1 & P1 & V1).
    destruct (policy_query_value _ _ _ _ _ _ _ _ E2) as (t2 & P2 & V2).
    exists t1, t2. auto.
Qed.

Lemma learn_td_ac_td_error_witness :
  exists res st',
    learn_td_ac Inputs.demo_td_actor_critic Inputs.demo_softplus 1 Inputs.demo_validate
      Inputs.demo_log_prob (99 # 100) Inputs.demo_state Inputs.demo_s_t Inputs.demo_a_t 1
      Inputs.demo_s_tp1 false = Some (res, st')
    /\ td_target res == 1594 # 1000
    /\ td_err res == 1094 # 1000.
Proof.
  destruct (learn_td_ac Inputs.demo_td_actor_critic Inputs.demo_softplus 1
              Inputs.demo_validate Inputs.demo_log_prob (99 # 100) Inputs.demo_state
              Inputs.demo_s_t Inputs.demo_a_t 1 Inputs.demo_s_tp1 false)
    as [[res st']|] eqn:E.
  - exists res, st'. split; [reflexivity|].
    destruct (learn_td_ac_td_error _ _ _ _ _ _ _ _ _ _ _ _ res st' E)
      as (d1 & st1 & d2 & E1 & E2 & Ht & He & _ & _).
    vm_compute in E1. injection E1 as _ <-.
    vm_compute in E2. injection E2 as _ <-.
    split.
    + rewrite Ht. vm_compute. reflexivity.
    + rewrite He, Ht. vm_compute. reflexivity.
  - vm_compute in E. discriminate E.
Defined.

End PolicyProofs.

Module DriverProofs.

Import Driver.

Section Loop.

Context {Obs Params Transition : Type}.
Variable get_action : Params -> Obs -> Transition.
Variable optimize : Params -> list Q -> list Transition -> Obs -> bool -> Params.

Lemma learn_log (o : Obs) (d : bool) (st : @driver Params Transition) :
  log (learn optimize o d st)
    = log st ++ [LossEv (global_step_num st) (rewards st) (trajectory st)]
  /\ global_step_num (learn optimize o d st) = global_step_num st.
Proof. split; reflexivity. Qed.

(** [learn] leaves both buffers as they are. *)
Lemma learn_keeps_buffers (o : Obs) (d : bool) (st : @driver Params Transition) :
  rewards (learn optimize o d st) = rewards st
  /\ trajectory (learn optimize o d st) = trajectory st.
Proof. split; reflexivity. Qed.

Lemma loss_steps_app (l1 l2 : list (@event Transition)) :
  loss_steps (l1 ++ l2) = loss_steps l1 ++ loss_steps l2.
Proof. unfold loss_steps, loss_events. rewrite flat_map_app, map_app. reflexivity. Qed.

Lemma ex_nat_split (P : nat -> Prop) : (exists i, P i) <-> P 0%nat \/ exists i, P (S i).
Proof.
  split.
  - intros [[|i] H]; [left; exact H | right; exists i; exact H].
  - intros [H | [i H]]; eauto.
Qed.

Lemma episode_loop_loss_steps :
  forall (script : list (Obs * Q * bool)) (thresh k : nat) (epr : Q) (obs : Obs)
         (st : @driver Params Transition),
    exists new,
      log (fst (episode_loop get_action optimize thresh k epr obs script st)) = log st ++ new
      /\ forall j,
           In j (loss_steps new) <->
           exists i, j = (global_step_num st + i)%nat /\ (i < steps_taken script)%nat
                     /\ ((thresh <= k + S i)%nat \/ done_at script i = true).
Proof.
  induction script as [|[[o r] d] script IH]; intros thresh k epr obs st.
  - exists []. split; [symmetry; apply app_nil_r|].
    intro j. split; [intros []|]. intros (i & _ & Hi & _). cbn in Hi. lia.
  - cbn [episode_loop].
    set (st1 := append_reward r (append_transition (get_action (params st) obs) st)).
    set (fires := Nat.leb thresh (S k) || d).
    set (st2 := if fires then learn optimize o d st1 else st1).
    set (pre := (if fires then [LossEv (global_step_num st) (rewards st1) (trajectory st1)]
                 else []) ++ [RewardEv (S (global_step_num st)) r]).
    assert (Hlog3 : log (write (RewardEv (global_step_num (tick st2)) r) (tick st2))
                    = log st ++ pre).
    { unfold pre, st2. destruct fires; cbn; [rewrite <- app_assoc|]; reflexivity. }
    assert (Hg3 : global_step_num (write (RewardEv (global_step_num (tick st2)) r) (tick st2))
                  = S (global_step_num st)).
    { unfold st2. destruct fires; reflexivity. }
    assert (Hpre : forall j, In j (loss_steps pre) <->
                             fires = true /\ j = global_step_num st).
    { intro j. unfold pre. rewrite loss_steps_app.
      destruct fires; cbn; intuition congruence. }
    assert (Hfires : fires = true <-> (thresh <= k + 1)%nat \/ d = true).
    { unfold fires. rewrite orb_true_iff, Nat.leb_le. rewrite Nat.add_1_r. tauto. }
    destruct d.
    + exists pre. split; [exact Hlog3|].
      intro j. rewrite Hpre. cbn [steps_taken].
      split.
      * intros [_ ->]. exists 0%nat. split; [lia|]. split; [lia|]. right. reflexivity.
      * intros ([|i] & Hj & Hi & _); [|lia].
        split; [apply Hfires; right; reflexivity | lia].
    + destruct (IH thresh (S k) (epr + r) o
                  (write (RewardEv (global_step_num (tick st2)) r) (tick st2)))
        as (new & Hlog & Hnew).
      exists (pre ++ new). split; [rewrite Hlog, Hlog3, app_assoc; reflexivity|].
      intro j. rewrite loss_steps_app, in_app_iff, Hpre, Hnew, Hg3, Hfires.
      cbn [steps_taken].
      split.
      * intros [[Hf Hj] | (i & Hj & Hi & Ht)].
        -- exists 0%nat. split; [lia|]. split; [lia|].
           destruct Hf as [Hf | Hf]; [left; lia | discriminate].
        -- exists (S i). split; [lia|]. split; [lia|].
           destruct Ht as [Ht | Ht]; [left; lia | right; exact Ht].
      * intros ([|i] & Hj & Hi & Ht).
        -- left. split; [|lia]. destruct Ht as [Ht | Ht]; [left; lia | discriminate].
        -- right. exists i. split; [lia|]. split; [lia|].
           destruct Ht as [Ht | Ht]; [left; lia | right; exact Ht].
Qed.

End Loop.

(** In one episode of [run], the learning update (the loss written to the
    summary at global step [g + i], [g] the global step count at the start of
    the episode, for the step of 0-based index [i]) fires exactly at the steps
    taken whose 1-based step count [i + 1] is at least the threshold, or which
    end the episode. *)
Theorem run_episode_learning_steps :
  forall {Obs Params Transition : Type}
         (get_action : Params -> Obs -> Transition)
         (optimize : Params -> list Q -> list Transition -> Obs -> bool -> Params)
         (thresh : nat) (st : @driver Params Transition) (obs0 : Obs)
         (script : list (Obs * Q * bool)),
    exists new,
      log (run_episode get_action optimize thresh st (obs0, script)) = log st ++ new
      /\ forall j,
           In j (loss_steps new) <->
           exists i, j = (global_step_num st + i)%nat /\ (i < steps_taken script)%nat
                     /\ ((thresh <= S i)%nat \/ done_at script i = true).
Proof.
  intros Obs Params Transition ga opt thresh st obs0 script.
  destruct (episode_loop_loss_steps ga opt script thresh 0 0 obs0 st) as (new & Hlog & Hnew).
  unfold run_episode. cbn [fst snd].
  destruct (episode_loop ga opt thresh 0 0 obs0 script st) as [st' epr] eqn:E.
  cbn [fst] in Hlog.
  exists (new ++ [EpRewardEv (global_step_num st') epr]).
  split; [cbn; rewrite Hlog, app_assoc; reflexivity|].
  intro j. rewrite loss_steps_app, in_app_iff, Hnew. cbn.
  split; [intros [H | []]; exact H | intro H; left; exact H].
Qed.

(** Claim C9: the per-episode step count is never reset after an update.
    With threshold 2 and an episode of four steps that ends at the fourth,
    the update fires at the second, third and fourth steps (global steps 1, 2
    and 3): at the third step the count is 3, which neither reaches the
    threshold anew nor ends the episode. *)
Theorem run_learns_after_threshold :
  loss_steps (log (run Inputs.demo_get_action Inputs.demo_optimize
                     [(0%nat, Inputs.script_four_steps)] 2 (init_driver 0%nat)))
    = [1; 2; 3]%nat.
Proof. reflexivity. Qed.

(** Claim C4: neither [self.rewards] nor [self.trajectory] is ever cleared.
    With threshold 1 and an episode of two steps (rewards 1 then 2), the
    second update is computed from the rewards [[1; 2]] and both transitions,
    not only from the reward and transition of the second step. *)
Theorem run_second_update_sees_first_window :
  loss_events (log (run Inputs.demo_get_action Inputs.demo_optimize
                      [(0%nat, Inputs.script_two_steps)] 1 (init_driver 0%nat)))
    = [(0%nat, [1], [0%nat]); (1%nat, [1; 2], [0%nat; 1%nat])].
Proof. reflexivity. Qed.

End DriverProofs.

(** * Further properties of the agent *)

Module NStepExtra.

Import NStep NStepProofs.

Lemma backward_head_shift g b1 b0 rs :
  hd b1 (backward_returns g b1 rs) - hd b0 (backward_returns g b0 rs)
  == qpow g (length rs) * (b1 - b0).
Proof.
  induction rs as [|r rs IH]; simpl; [ring|].
  setoid_replace (r + g * hd b1 (backward_returns g b1 rs) -
                  (r + g * hd b0 (backward_returns g b0 rs)))
    with (g * (hd b1 (backward_returns g b1 rs) - hd b0 (backward_returns g b0 rs)))
    by ring.
  rewrite IH. ring.
Qed.

Lemma backward_nth_hd g b rs t :
  (t < length rs)%nat -> nth t (backward_returns g b rs) 0 = hd b (backward_returns g b (skipn t rs)).
Proof.
  intro Ht. rewrite nth_hd_skipn, backward_skipn.
  destruct (skipn t rs) eqn:E; [|reflexivity].
  apply (f_equal (@length Q)) in E. rewrite length_skipn in E. cbn in E. lia.
Qed.

(** With a non-terminal final state, changing the bootstrap value
    [V(final_state)] by [dV] changes the return at index [t] by exactly
    [gamma^(n - t) * dV], [n] the number of rewards: the last return moves by
    [gamma * dV], the first by [gamma^n * dV]. *)
Theorem calculate_n_step_return_bootstrap_shift :
  forall (Obs : Type) (V1 V0 : Obs -> Q) (self_gamma : Q) (rewards : list Q)
         (final_state : Obs) (gamma : Q) (t : nat),
    (t < length rewards)%nat ->
    nth t (calculate_n_step_return Obs V1 self_gamma rewards final_state false gamma) 0
    - nth t (calculate_n_step_return Obs V0 self_gamma rewards final_state false gamma) 0
    == qpow self_gamma (length rewards - t) * (V1 final_state - V0 final_state).
Proof.
  intros Obs V1 V0 g rs fs gamma t Ht.
  rewrite !calc_is_backward, !backward_nth_hd by exact Ht.
  rewrite backward_head_shift, length_skipn. reflexivity.
Qed.

Lemma calculate_n_step_return_bootstrap_shift_witness :
  (0 < length [1; 2; 3])%nat
  /\ nth 0 (calculate_n_step_return unit (fun _ => 10) (1 # 2) [1; 2; 3] tt false (1 # 2)) 0
     - nth 0 (calculate_n_step_return unit (fun _ => 2) (1 # 2) [1; 2; 3] tt false (1 # 2)) 0
     == qpow (1 # 2) (length [1; 2; 3] - 0) * (10 - 2).
Proof.
  assert (H : (0 < length [1; 2; 3])%nat) by (simpl; lia).
  split; [exact H|].
  exact (calculate_n_step_return_bootstrap_shift unit (fun _ => 10) (fun _ => 2) (1 # 2)
           [1; 2; 3] tt (1 # 2) 0 H).
Defined.

End NStepExtra.

Module AdapterExtra.

Lemma concat_repeat_length (d : list Q) r :
  length (concat (repeat d r)) = (r * length d)%nat.
Proof. induction r as [|r IH]; simpl; [reflexivity|]. rewrite length_app, IH. lia. Qed.

Lemma concat_repeat_nth (d : list Q) r k :
  d <> [] -> (k < r * length d)%nat ->
  nth k (concat (repeat d r)) 0 = nth (k mod length d) d 0.
Proof.
  intros Hd. revert k. induction r as [|r IH]; intros k Hk; simpl in Hk; [lia|].
  simpl. assert (Hl : length d <> 0%nat) by (destruct d; [congruence|discriminate]).
  destruct (Nat.lt_ge_cases k (length d)) as [Hlt|Hge].
  - rewrite app_nth1 by exact Hlt. rewrite Nat.mod_small by exact Hlt. reflexivity.
  - rewrite app_nth2 by exact Hge. rewrite IH by lia.
    replace k with ((k - length d) + 1 * length d)%nat at 2 by lia.
    rewrite Nat.Div0.mod_add. reflexivity.
Qed.

Lemma ceil_div_cover n s : s <> 0%nat -> (n <= (n + s - 1) / s * s)%nat.
Proof.
  intro Hs.
  pose proof (Nat.div_mod_eq (n + s - 1) s) as E.
  pose proof (Nat.mod_upper_bound (n + s - 1) s Hs) as M.
  lia.
Qed.

(** [np.resize] to a non-empty shape from non-empty data: exactly
    [numel s] entries, entry [k] being entry [k mod size] of the input. *)
Lemma np_resize_cyclic (a : tensor) (s : list nat) :
  data a <> [] -> numel s <> 0%nat ->
  shape (np_resize a s) = s
  /\ length (data (np_resize a s)) = numel s
  /\ forall k, (k < numel s)%nat ->
       nth k (data (np_resize a s)) 0 = nth (k mod length (data a)) (data a) 0.
Proof.
  intros Hd Hs. unfold np_resize.
  assert (Hl : length (data a) <> 0%nat) by (destruct (data a); [congruence|discriminate]).
  apply Nat.eqb_neq in Hl. apply Nat.eqb_neq in Hs as Hs'. rewrite Hl, Hs'. cbn -[numel].
  apply Nat.eqb_neq in Hl.
  pose proof (ceil_div_cover (numel s) (length (data a)) Hl) as Hc.
  split; [reflexivity|]. split.
  - rewrite length_firstn, concat_repeat_length. lia.
  - intros k Hk. rewrite nth_firstn.
    destruct (Nat.ltb_spec k (numel s)) as [_|]; [|lia].
    apply concat_repeat_nth; [exact Hd | lia].
Qed.

(** For every 3-D NumPy observation with [h * w * c > 0] entries,
    [preproc_obs] returns a [1 x 3 x 84 x 84] tensor whose [k]-th row-major
    entry is entry [k mod (h * w * c)] of the observation's row-major data:
    the data is cut (or repeated) to [3 * 84 * 84] entries, whatever [h], [w]
    and [c] are. *)
Theorem preproc_obs_image_cyclic :
  forall (h w c : nat) (d : list Q),
    length d = (h * w * c)%nat -> d <> [] ->
    exists t,
      preproc_obs (NdArray (mk_tensor [h; w; c] d)) = Some (Torch t)
      /\ shape t = [1; 3; 84; 84]%nat
      /\ length (data t) = (3 * 84 * 84)%nat
      /\ forall k, (k < 3 * 84 * 84)%nat -> nth k (data t) 0 = nth (k mod (h * w * c)) d 0.
Proof.
  intros h w c d Hlen Hd.
  assert (Hnum : numel [3; 84; 84]%nat <> 0%nat) by discriminate.
  destruct (np_resize_cyclic (mk_tensor [c; w; h] d) [3; 84; 84]%nat Hd Hnum)
    as (Hs & Hl & Hn).
  exists (unsqueeze0 (np_resize (mk_tensor [c; w; h] d) [3; 84; 84]%nat)).
  split.
  - unfold preproc_obs, np_reshape. cbn [rank shape data length Nat.eqb].
    replace (Nat.eqb (numel [c; w; h]) (length d)) with true; [reflexivity|].
    symmetry. apply Nat.eqb_eq. rewrite Hlen. cbn. ring.
  - split; [cbn [unsqueeze0 shape]; rewrite Hs; reflexivity|].
    split; [exact Hl|].
    intros k Hk. cbn [unsqueeze0 data]. rewrite Hn by exact Hk.
    cbn [data]. rewrite Hlen. reflexivity.
Qed.

Lemma preproc_obs_image_cyclic_witness :
  exists t,
    preproc_obs (NdArray (mk_tensor [2; 2; 1]%nat [1; 2; 3; 4])) = Some (Torch t)
    /\ shape t = [1; 3; 84; 84]%nat
    /\ length (data t) = (3 * 84 * 84)%nat
    /\ forall k, (k < 3 * 84 * 84)%nat -> nth k (data t) 0 = nth (k mod (2 * 2 * 1)) [1; 2; 3; 4] 0.
Proof.
  apply (preproc_obs_image_cyclic 2 2 1 [1; 2; 3; 4]); [reflexivity | discriminate].
Defined.

(** [process_action] returns every action whose squeezed form has at most
    one axis with its values unchanged: a scalar becomes a one-entry vector,
    a vector keeps its squeezed shape. *)
Theorem process_action_low_rank_identity :
  forall t : tensor,
    (rank (squeeze t) <= 1)%nat ->
    process_action t
      = Some (mk_tensor (if Nat.eqb (rank (squeeze t)) 0 then [1%nat] else shape (squeeze t))
                        (data t)).
Proof.
  intros t Hr. unfold process_action. cbv zeta.
  change (data t) with (data (squeeze t)).
  destruct (squeeze t) as [sh dt]. unfold rank in *. cbn in *.
  destruct sh as [|x [|y sh]]; cbn in *; [reflexivity | reflexivity | lia].
Qed.

Lemma process_action_low_rank_identity_witness :
  (rank (squeeze (mk_tensor [1; 3]%nat [1 # 2; -1 # 5; 3 # 2])) <= 1)%nat
  /\ process_action (mk_tensor [1; 3]%nat [1 # 2; -1 # 5; 3 # 2])
     = Some (mk_tensor (if Nat.eqb (rank (squeeze (mk_tensor [1; 3]%nat [1 # 2; -1 # 5; 3 # 2]))) 0
                        then [1%nat] else shape (squeeze (mk_tensor [1; 3]%nat [1 # 2; -1 # 5; 3 # 2])))
                       [1 # 2; -1 # 5; 3 # 2]).
Proof.
  assert (H : (rank (squeeze (mk_tensor [1; 3]%nat [1 # 2; -1 # 5; 3 # 2])) <= 1)%nat)
    by (vm_compute; lia).
  split; [exact H|].
  exact (process_action_low_rank_identity (mk_tensor [1; 3]%nat [1 # 2; -1 # 5; 3 # 2]) H).
Defined.

End AdapterExtra.

Module PolicyExtra.

Import Policy PolicyProofs.

(** For a batch-1 network mean of shape [(1, n)], [n >= 1], the distribution
    the wrapper returns has a location of shape [(n,)] (a one-dimensional
    action space gets its axis back after the squeeze) holding the clamped
    means, and the wrapper stores that same tensor as [self.mu]. *)
Theorem policy_loc_shape :
  forall (actor_critic : tensor -> tensor * tensor * Q) (softplus : Q -> Q)
         (action_shape : nat) (mvn_validate : tensor -> tensor -> bool)
         (st : agent_state) (obs : tensor) (n : nat) (d : mvn) (st' : agent_state),
    shape (fst (fst (actor_critic obs))) = [1%nat; n] ->
    (1 <= n)%nat ->
    multi_variate_gaussian_policy actor_critic softplus action_shape mvn_validate st obs
      = Some (d, st') ->
    shape (loc d) = [n]
    /\ data (loc d) = map (clampQ (-1) 1) (data (fst (fst (actor_critic obs))))
    /\ self_mu st' = loc d.
Proof.
  intros ac sp an val st obs n d st' Hs Hn E.
  pose proof (policy_loc ac sp an val st obs d st' E) as Hd.
  unfold multi_variate_gaussian_policy in E.
  destruct (ac obs) as [[mu sigma] value]. cbn [fst] in Hs, Hd.
  destruct (eye_times _ _) as [cov|]; [|discriminate].
  destruct (val _ _); [|discriminate].
  injection E as <- <-. cbn [loc self_mu].
  split; [|split; [exact Hd | reflexivity]].
  unfold clamp, tmap, squeeze, rank. cbn [shape]. rewrite Hs.
  destruct n as [|[|n]]; [lia | reflexivity | reflexivity].
Qed.

Lemma policy_loc_shape_witness :
  exists d st',
    shape (fst (fst (Inputs.demo_actor_critic (mk_tensor [1; 4]%nat [0; 0; 0; 0]))))
      = [1%nat; 2%nat]
    /\ multi_variate_gaussian_policy Inputs.demo_actor_critic Inputs.demo_softplus 2
         Inputs.demo_validate Inputs.demo_state (mk_tensor [1; 4]%nat [0; 0; 0; 0])
       = Some (d, st')
    /\ shape (loc d) = [2%nat].
Proof.
  destruct (multi_variate_gaussian_policy Inputs.demo_actor_critic Inputs.demo_softplus 2
              Inputs.demo_validate Inputs.demo_state (mk_tensor [1; 4]%nat [0; 0; 0; 0]))
    as [[d st']|] eqn:E.
  - exists d, st'.
    assert (Hs : shape (fst (fst (Inputs.demo_actor_critic (mk_tensor [1; 4]%nat [0; 0; 0; 0]))))
                 = [1%nat; 2%nat]) by reflexivity.
    split; [exact Hs|]. split; [reflexivity|].
    destruct (policy_loc_shape _ _ _ _ _ _ 2 d st' Hs ltac:(lia) E) as [H _].
    exact H.
  - vm_compute in E. discriminate E.
Defined.

(** When [Softplus] is positive, every entry of the spread the wrapper
    computes and stores as [self.sigma] is strictly above [1e-7]. *)
Theorem policy_sigma_above_floor :
  forall (actor_critic : tensor -> tensor * tensor * Q) (softplus : Q -> Q)
         (action_shape : nat) (mvn_validate : tensor -> tensor -> bool)
         (st : agent_state) (obs : tensor) (d : mvn) (st' : agent_state),
    (forall x, 0 < softplus x) ->
    multi_variate_gaussian_policy actor_critic softplus action_shape mvn_validate st obs
      = Some (d, st') ->
    Forall (fun x => 1 # 10000000 < x) (data (self_sigma st')).
Proof.
  intros ac sp an val st obs d st' Hsp E.
  unfold multi_variate_gaussian_policy in E.
  destruct (ac obs) as [[mu sigma] value].
  destruct (eye_times _ _) as [cov|]; [|discriminate].
  destruct (val _ _); [|discriminate].
  injection E as _ <-. cbn.
  apply Forall_forall. intros x Hx.
  apply in_map_iff in Hx as [y [<- Hy]].
  apply in_map_iff in Hy as [z [<- _]].
  pose proof (Hsp z) as Hz.
  rewrite <- (Qplus_0_l (1 # 10000000)) at 1.
  apply Qplus_lt_l. exact Hz.
Qed.

Lemma policy_sigma_above_floor_witness :
  exists d st',
    (forall x : Q, 0 < (fun _ : Q => 1) x)
    /\ multi_variate_gaussian_policy Inputs.demo_actor_critic (fun _ => 1) 2
         Inputs.demo_validate Inputs.demo_state (mk_tensor [1; 4]%nat [0; 0; 0; 0])
       = Some (d, st')
    /\ Forall (fun x => 1 # 10000000 < x) (data (self_sigma st')).
Proof.
  assert (Hsp : forall x : Q, 0 < (fun _ : Q => 1) x) by (intro x; reflexivity).
  destruct (multi_variate_gaussian_policy Inputs.demo_actor_critic (fun _ => 1) 2
              Inputs.demo_validate Inputs.demo_state (mk_tensor [1; 4]%nat [0; 0; 0; 0]))
    as [[d st']|] eqn:E.
  - exists d, st'. split; [exact Hsp|]. split; [reflexivity|].
    exact (policy_sigma_above_floor _ _ _ _ _ _ d st' Hsp E).
  - vm_compute in E. discriminate E.
Defined.

End PolicyExtra.

Module NetworkExtra.

Import Networks.

(** The network the agent builds accepts the observations [preproc_obs]
    produces: for an image state shape [(h, w, c)] the deep network maps a
    [1 x 3 x 84 x 84] input to a mean and a spread of shape
    [(1, action_shape)] and a value of shape [(1, 1)] exactly when [c = 3]
    (its first convolution expects [c] channels, [preproc_obs] always gives 3),
    and fails otherwise; for a vector state shape [(d,)] the shallow network
    maps a [(1, d)] input to the same output shapes. *)
Theorem agent_network_accepts_preprocessed :
  forall (h w c d action_shape : nat),
    agent_forward_shape [h; w; c] action_shape [1; 3; 84; 84]%nat
      = (if Nat.eqb c 3
         then Some ([1%nat; action_shape], [1%nat; action_shape], [1%nat; 1%nat])
         else None)
    /\ agent_forward_shape [d] action_shape [1%nat; d]
       = Some ([1%nat; action_shape], [1%nat; action_shape], [1%nat; 1%nat]).
Proof.
  intros h w c d a. split.
  - unfold agent_forward_shape, deep_forward_shape. cbn [length Nat.eqb nth].
    destruct (Nat.eqb_spec c 3) as [->|Hc].
    + vm_compute. reflexivity.
    + assert (Hf : Nat.eqb 3 c = false) by (apply Nat.eqb_neq; congruence).
      unfold conv2d at 1. cbv beta iota. rewrite Hf. reflexivity.
  - unfold agent_forward_shape, shallow_forward_shape. cbn [length Nat.eqb nth].
    unfold linear at 1. cbn. rewrite Nat.eqb_refl. vm_compute. reflexivity.
Qed.

End NetworkExtra.

Module DriverExtra.

Import Driver DriverProofs.

Section Extra.

Context {Obs Params Transition : Type}.
Variable get_action : Params -> Obs -> Transition.
Variable optimize : Params -> list Q -> list Transition -> Obs -> bool -> Params.

Lemma maybe_learn_fields (b : bool) (o : Obs) (d : bool) (st : @driver Params Transition) :
  let st' := if b then learn optimize o d st else st in
  rewards st' = rewards st /\ trajectory st' = trajectory st
  /\ global_step_num st' = global_step_num st
  /\ loss_events (log st')
     = loss_events (log st)
       ++ (if b then [(global_step_num st, rewards st, trajectory st)] else []).
Proof.
  destruct b; cbn; [|rewrite app_nil_r; auto].
  unfold loss_events. rewrite flat_map_app. auto.
Qed.

Lemma loss_events_write_other (e : @event Transition) (st : @driver Params Transition) :
  (forall n rs tr, e <> LossEv n rs tr) ->
  loss_events (log (write e st)) = loss_events (log st).
Proof.
  intro He. unfold loss_events. cbn. rewrite flat_map_app.
  destruct e as [n rs tr| |]; [exfalso; exact (He n rs tr eq_refl)| |];
    cbn; apply app_nil_r.
Qed.

Lemma episode_loop_buffers :
  forall (script : list (Obs * Q * bool)) (thresh k : nat) (epr : Q) (obs : Obs)
         (st : @driver Params Transition),
    rewards (fst (episode_loop get_action optimize thresh k epr obs script st))
      = rewards st ++ taken_rewards script
    /\ length (trajectory (fst (episode_loop get_action optimize thresh k epr obs script st)))
       = (length (trajectory st) + steps_taken script)%nat
    /\ global_step_num (fst (episode_loop get_action optimize thresh k epr obs script st))
       = (global_step_num st + steps_taken script)%nat
    /\ snd (episode_loop get_action optimize thresh k epr obs script st)
       = fold_left Qplus (taken_rewards script) epr.
Proof.
  induction script as [|[[o r] d] script IH]; intros thresh k epr obs st.
  - cbn. rewrite app_nil_r. auto.
  - cbn [episode_loop].
    set (st1 := append_reward r (append_transition (get_action (params st) obs) st)).
    set (b := Nat.leb thresh (S k) || d).
    destruct (maybe_learn_fields b o d st1) as (Hr & Ht & Hg & _).
    set (st2 := if b then learn optimize o d st1 else st1) in *.
    destruct d.
    + cbn. rewrite Hr, Ht, Hg. cbn. rewrite length_app. cbn. repeat split; lia.
    + destruct (IH thresh (S k) (epr + r) o
                  (write (RewardEv (global_step_num (tick st2)) r) (tick st2)))
        as (IHr & IHt & IHg & IHe).
      rewrite IHr, IHt, IHg, IHe. cbn. rewrite Hr, Ht, Hg. cbn.
      rewrite <- app_assoc, length_app. cbn. repeat split; lia.
Qed.

(** The invariant of the agent's buffers: both hold one entry per global
    step, and every loss so far was computed from [n + 1] rewards and
    transitions at global step [n]. *)
Definition buffers_inv (st : @driver Params Transition) : Prop :=
  length (rewards st) = global_step_num st
  /\ length (trajectory st) = global_step_num st
  /\ forall n rs tr, In (n, rs, tr) (loss_events (log st)) ->
                     length rs = S n /\ length tr = S n.

Lemma episode_loop_inv :
  forall (script : list (Obs * Q * bool)) (thresh k : nat) (epr : Q) (obs : Obs)
         (st : @driver Params Transition),
    buffers_inv st ->
    buffers_inv (fst (episode_loop get_action optimize thresh k epr obs script st)).
Proof.
  induction script as [|[[o r] d] script IH]; intros thresh k epr obs st Hinv;
    [exact Hinv|].
  cbn [episode_loop].
  set (st1 := append_reward r (append_transition (get_action (params st) obs) st)).
  set (b := Nat.leb thresh (S k) || d).
  destruct (maybe_learn_fields b o d st1) as (Hr & Ht & Hg & Hl).
  set (st2 := if b then learn optimize o d st1 else st1) in *.
  destruct Hinv as (Ir & It & Il).
  assert (H3 : buffers_inv (write (RewardEv (global_step_num (tick st2)) r) (tick st2))).
  { unfold buffers_inv.
    rewrite loss_events_write_other by discriminate.
    cbn [write tick rewards trajectory global_step_num log].
    rewrite Hr, Ht, Hg, Hl. cbn. rewrite !length_app. cbn.
    split; [lia|]. split; [lia|].
    intros n rs tr Hin. apply in_app_iff in Hin as [Hin | Hin]; [exact (Il n rs tr Hin)|].
    destruct b; [|contradiction].
    destruct Hin as [E | []]. injection E as <- <- <-.
    rewrite !length_app. cbn. split; lia. }
  destruct d; [exact H3|]. apply IH. exact H3.
Qed.

Lemma run_inv (episodes : list (Obs * list (Obs * Q * bool))) (thresh : nat)
    (st : @driver Params Transition) :
  buffers_inv st -> buffers_inv (run get_action optimize episodes thresh st).
Proof.
  unfold run. revert st. induction episodes as [|[obs0 script] eps IH]; intros st Hinv;
    [exact Hinv|].
  cbn [fold_left]. apply IH.
  unfold run_episode. cbn [fst snd].
  pose proof (episode_loop_inv script thresh 0 0 obs0 st Hinv) as H.
  destruct (episode_loop get_action optimize thresh 0 0 obs0 script st) as [st' epr].
  cbn [fst] in H. destruct H as (Hr & Ht & Hl).
  unfold buffers_inv. rewrite loss_events_write_other by discriminate.
  cbn. auto.
Qed.

Lemma reward_events_app (l1 l2 : list (@event Transition)) :
  reward_events (l1 ++ l2) = reward_events l1 ++ reward_events l2.
Proof. unfold reward_events. apply flat_map_app. Qed.

(** Within an episode, the reward of the step of 0-based index [i] is
    written at global step [global_step_num + i + 1], [global_step_num] the
    count at the start of the episode: the counter is incremented before the
    reward's [add_scalar] call. *)
Theorem episode_loop_reward_steps :
  forall (script : list (Obs * Q * bool)) (thresh k : nat) (epr : Q) (obs : Obs)
         (st : @driver Params Transition),
    reward_events (log (fst (episode_loop get_action optimize thresh k epr obs script st)))
      = reward_events (log st)
        ++ combine (seq (S (global_step_num st)) (steps_taken script)) (taken_rewards script).
Proof.
  induction script as [|[[o r] d] script IH]; intros thresh k epr obs st.
  - cbn. rewrite app_nil_r. reflexivity.
  - cbn [episode_loop].
    set (st1 := append_reward r (append_transition (get_action (params st) obs) st)).
    set (b := Nat.leb thresh (S k) || d).
    destruct (maybe_learn_fields b o d st1) as (_ & _ & Hg & _).
    assert (Hl : reward_events (log (if b then learn optimize o d st1 else st1))
                 = reward_events (log st)).
    { destruct b; [|reflexivity]. unfold learn, write. cbn [log].
      rewrite reward_events_app. change (reward_events [LossEv _ _ _]) with (@nil (nat * Q)).
      apply app_nil_r. }
    set (st2 := if b then learn optimize o d st1 else st1) in *.
    assert (Hg1 : global_step_num st1 = global_step_num st) by reflexivity.
    destruct d.
    + cbn [fst log write tick global_step_num]. unfold reward_events in *.
      rewrite flat_map_app, Hl. cbn. rewrite Hg, Hg1. reflexivity.
    + rewrite IH. cbn [log write tick global_step_num]. unfold reward_events in *.
      rewrite flat_map_app, Hl, Hg, Hg1, <- app_assoc. reflexivity.
Qed.

End Extra.

(** Every loss [run] writes on a new agent is computed from all the rewards
    and transitions since the agent was created: the loss written at global
    step [n] comes from exactly [n + 1] rewards and [n + 1] transitions, over
    any number of episodes. *)
Theorem run_losses_use_whole_history :
  forall {Obs Params Transition : Type}
         (get_action : Params -> Obs -> Transition)
         (optimize : Params -> list Q -> list Transition -> Obs -> bool -> Params)
         (episodes : list (Obs * list (Obs * Q * bool))) (thresh : nat) (p : Params)
         (n : nat) (rs : list Q) (tr : list Transition),
    In (n, rs, tr) (loss_events (log (run get_action optimize episodes thresh (init_driver p)))) ->
    length rs = S n /\ length tr = S n.
Proof.
  intros Obs Params Transition ga opt eps thresh p n rs tr Hin.
  assert (H0 : @buffers_inv Params Transition (init_driver p))
    by (split; [reflexivity | split; [reflexivity | intros ? ? ? []]]).
  destruct (run_inv ga opt eps thresh _ H0) as (_ & _ & H). exact (H n rs tr Hin).
Qed.

Lemma run_losses_use_whole_history_witness :
  In (4%nat, [1; 2; 1; 2; 3], [0%nat; 1%nat; 0%nat; 1%nat; 2%nat])
     (loss_events (log (run Inputs.demo_get_action Inputs.demo_optimize
                          [(0%nat, Inputs.script_two_steps); (0%nat, Inputs.script_three_steps)]
                          3 (init_driver 0%nat))))
  /\ length [1; 2; 1; 2; 3] = 5%nat /\ length [0%nat; 1%nat; 0%nat; 1%nat; 2%nat] = 5%nat.
Proof.
  assert (Hin : In (4%nat, [1; 2; 1; 2; 3], [0%nat; 1%nat; 0%nat; 1%nat; 2%nat])
     (loss_events (log (run Inputs.demo_get_action Inputs.demo_optimize
                          [(0%nat, Inputs.script_two_steps); (0%nat, Inputs.script_three_steps)]
                          3 (init_driver 0%nat))))).
  { vm_compute. right. left. reflexivity. }
  split; [exact Hin|].
  exact (run_losses_use_whole_history _ _ _ _ _ _ _ _ Hin).
Defined.

(** Over a run, [self.rewards] only grows: it ends as the rewards it held
    followed by the rewards of every step of every episode, in order; the
    trajectory gains one transition and the global step counter one unit per
    step. *)
Theorem run_accumulates_buffers :
  forall {Obs Params Transition : Type}
         (get_action : Params -> Obs -> Transition)
         (optimize : Params -> list Q -> list Transition -> Obs -> bool -> Params)
         (episodes : list (Obs * list (Obs * Q * bool))) (thresh : nat)
         (st : @driver Params Transition),
    rewards (run get_action optimize episodes thresh st)
      = rewards st ++ flat_map (fun e => taken_rewards (snd e)) episodes
    /\ length (trajectory (run get_action optimize episodes thresh st))
       = (length (trajectory st) + list_sum (map (fun e => steps_taken (snd e)) episodes))%nat
    /\ global_step_num (run get_action optimize episodes thresh st)
       = (global_step_num st + list_sum (map (fun e => steps_taken (snd e)) episodes))%nat.
Proof.
  intros Obs Params Transition ga opt eps thresh.
  unfold run. induction eps as [|[obs0 script] eps IH]; intro st.
  - cbn. rewrite app_nil_r. auto.
  - cbn [fold_left]. destruct (IH (run_episode ga opt thresh st (obs0, script)))
      as (Hr & Ht & Hg).
    rewrite Hr, Ht, Hg.
    unfold run_episode. cbn [fst snd].
    destruct (episode_loop_buffers ga opt script thresh 0 0 obs0 st) as (Er & Et & Eg & _).
    destruct (episode_loop ga opt thresh 0 0 obs0 script st) as [st' epr].
    cbn [fst] in Er, Et, Eg. cbn. rewrite Er, Et, Eg, <- app_assoc.
    unfold list_sum. split; [reflexivity|]. split; lia.
Qed.

(** The episode reward [run] writes after an episode is the sum of the
    rewards of the steps the episode took, written at the global step count
    reached at the end of the episode, as the last record of the episode. *)
Theorem run_episode_writes_episode_reward :
  forall {Obs Params Transition : Type}
         (get_action : Params -> Obs -> Transition)
         (optimize : Params -> list Q -> list Transition -> Obs -> bool -> Params)
         (thresh : nat) (st : @driver Params Transition) (obs0 : Obs)
         (script : list (Obs * Q * bool)),
    exists new,
      log (run_episode get_action optimize thresh st (obs0, script))
        = log st ++ new
          ++ [EpRewardEv (global_step_num st + steps_taken script)
                         (fold_left Qplus (taken_rewards script) 0)].
Proof.
  intros Obs Params Transition ga opt thresh st obs0 script.
  destruct (episode_loop_loss_steps ga opt script thresh 0 0 obs0 st) as (new & Hlog & _).
  destruct (episode_loop_buffers ga opt script thresh 0 0 obs0 st) as (_ & _ & Eg & Ee).
  exists new. unfold run_episode. cbn [fst snd].
  destruct (episode_loop ga opt thresh 0 0 obs0 script st) as [st' epr].
  cbn [fst snd] in Hlog, Eg, Ee. cbn. rewrite Hlog, Eg, Ee, app_assoc. reflexivity.
Qed.

End DriverExtra.
